(** * TissueMAPS: the Experiment model (app/src/core/experiment/Experiment.ts)

    A shallow embedding of class [Experiment]: its constructor, the derived
    projections [maxZoom], [maxZ], [minZ] and the lifecycle operations
    [getAll], [get], [delete], [create] and [submitWorkflow]; and of the
    checks of scripts/create_conda_env.sh. *)

From stdpp Require Import gmap strings list fin_maps.

Open Scope string_scope.
Open Scope list_scope.
Set Warnings "-register-all".

(** ** JavaScript values *)

(** A JavaScript [number] as far as the model reads it: zoom levels and
    z-plane indices are integers, so a finite number is represented by its
    integer value; the three values that are not finite are kept, because
    [Math.max] and [Math.min] produce and propagate them. *)
Inductive number :=
| NaN
| NegInfinity
| Int (z : Z)
| Infinity.

(** Values are trees: primitives, arrays and object literals. An exception
    object is a value too, since it can be thrown and become the reason of
    a rejected promise. *)
Inductive value :=
| undefined
| null
| VBool (b : bool)
| VNum (n : number)
| VStr (s : string)
| VArr (vs : list value)
| VObj (props : gmap string value)
| TypeError.

(** An object is its property table. *)
Abbreviation object := (gmap string value).

(** Objects that are mutated in place have an identity: they live in a store
    and are passed around by reference. A reference whose object was never
    written reads as the empty object. *)
Definition loc := nat.
Abbreviation heap := (gmap loc object).

(** How a piece of code completes: with a value, or by throwing. *)
Inductive completion (A : Type) :=
| Normal (a : A)
| Throw (exn : value).
Arguments Normal {A} a.
Arguments Throw {A} exn.

Global Instance completion_ret : MRet completion := λ A a, Normal a.
Global Instance completion_bind : MBind completion := λ A B f c,
  match c with
  | Normal a => f a
  | Throw exn => Throw exn
  end.

(** [v.p]: reading a property of [undefined] or [null] throws a TypeError;
    a property that is not there reads as [undefined]. *)
Definition get_prop (v : value) (p : string) : completion value :=
  match v with
  | undefined | null => Throw TypeError
  | VObj props => Normal (default undefined (props !! p))
  | _ => Normal undefined
  end.

(** ** Math.max and Math.min *)

Module Math.

(** [x > y] on numbers; every comparison with NaN is false. *)
Definition gt (x y : number) : bool :=
  match x, y with
  | NaN, _ | _, NaN => false
  | NegInfinity, _ => false
  | _, Infinity => false
  | Int a, Int b => bool_decide (b < a)%Z
  | Int _, NegInfinity => true
  | Infinity, _ => true
  end.

(** One step of [Math.max]: NaN is absorbing, otherwise the larger wins. *)
Definition max2 (highest x : number) : number :=
  match highest, x with
  | NaN, _ | _, NaN => NaN
  | _, _ => if gt x highest then x else highest
  end.

Definition min2 (lowest x : number) : number :=
  match lowest, x with
  | NaN, _ | _, NaN => NaN
  | _, _ => if gt lowest x then x else lowest
  end.

(** [Math.max.apply(_, zs)]: starts from -Infinity, which is the result
    for no arguments. *)
Definition max (zs : list number) : number := foldl max2 NegInfinity zs.

(** [Math.min.apply(_, zs)]: starts from +Infinity. *)
Definition min (zs : list number) : number := foldl min2 Infinity zs.

End Math.

(** ** The collaborators of Experiment *)

Module Layer.
(** Modelled from the spec: class Layer is not among the sources. A layer
    exposes [maxZoom]. *)
Record t := { maxZoom : number }.
End Layer.

Module Channel.
(** Modelled from the spec: class Channel is not among the sources. A
    channel exposes [maxZ], [minZ] and its [layers]. *)
Record t := { maxZ : number; minZ : number; layers : list Layer.t }.

(** Modelled from the spec: the constructor of Channel is not among the
    sources. A channel is constructed from a serialized channel record;
    what the constructor makes of the record is left open: it is any
    function of the record as it stands when the constructor is called. *)
Class Constructor := new : object → t.
End Channel.

(** [interface MapobjectType]; [Feature] is declared elsewhere and is kept
    as a value. *)
Record MapobjectType := {
  mt_id : string;
  mt_name : string;
  features : list value
}.

(** The serialized experiment as [Experiment] reads it. The entries of
    [channels] are references: the channel records are objects of the
    store. *)
Module SerializedExperiment.
Record t := {
  id : string;
  name : string;
  description : string;
  status : string;
  plate_format : string;
  microscope_type : string;
  plate_acquisition_mode : string;
  mapobject_types : list MapobjectType;
  workflow_description : value;
  channels : list loc
}.
End SerializedExperiment.

(** The arguments of [Experiment.create], as [create] reads them. *)
Module CreateExperimentArgs.
Record t := {
  name : string;
  description : string;
  plateFormat : string;
  microscopeType : string;
  plateAcquisitionMode : string
}.
End CreateExperimentArgs.

(** Underscore's [_.extend(obj, source)]: copies the properties of [source]
    onto the object [obj] refers to, in place, and returns [obj]. *)
Module Underscore.
Definition extend (obj : loc) (source : object) (h : heap) : loc * heap :=
  (obj, <[obj := source ∪ (h !!! obj)]> h).
End Underscore.

(** ** Promises *)

(** A promise, by the state it ends in once the event loop has run its
    callbacks: it may stay pending for ever. *)
Inductive promise (A : Type) :=
| Pending
| Fulfilled (a : A)
| Rejected (reason : value).
Arguments Pending {A}.
Arguments Fulfilled {A} a.
Arguments Rejected {A} reason.

(** The response object [$http] passes to a callback. *)
Record response (D : Type) := { data : D }.
Arguments data {D} r.

Section Callbacks.
(** [S] is the state the callbacks can change. *)
Context {S : Type}.

Definition callback (A B : Type) := A → S → completion B * S.

(** [p.then(onFulfilled)]: the new promise is fulfilled with what the
    callback returns and rejected with what it throws; a rejection of [p]
    passes through. *)
Definition then_ {A B} (p : promise A) (onFulfilled : callback A B)
    (s : S) : promise B * S :=
  match p with
  | Pending => (Pending, s)
  | Fulfilled a =>
      match onFulfilled a s with
      | (Normal b, s') => (Fulfilled b, s')
      | (Throw exn, s') => (Rejected exn, s')
      end
  | Rejected reason => (Rejected reason, s)
  end.

(** [p.catch(onRejected)]: the new promise is fulfilled with what the
    callback returns (the rejection is handled) and rejected only with
    what the callback throws; a fulfilment of [p] passes through. *)
Definition catch_ {A} (p : promise A) (onRejected : callback value A)
    (s : S) : promise A * S :=
  match p with
  | Pending => (Pending, s)
  | Fulfilled a => (Fulfilled a, s)
  | Rejected reason =>
      match onRejected reason s with
      | (Normal b, s') => (Fulfilled b, s')
      | (Throw exn, s') => (Rejected exn, s')
      end
  end.
End Callbacks.

(** [$q.defer()]: a promise settled by hand; only the first settlement
    counts. *)
Module Deferred.
Definition defer {A} : promise A := Pending.
Definition resolve {A} (a : A) (d : promise A) : promise A :=
  match d with Pending => Fulfilled a | _ => d end.
Definition reject {A} (reason : value) (d : promise A) : promise A :=
  match d with Pending => Rejected reason | _ => d end.
End Deferred.

(** [resp.data.error] in a rejection callback, where [resp] is untyped. *)
Definition resp_data_error (resp : value) : completion value :=
  d ← get_prop resp "data"; get_prop d "error".

(** [$q.reject(reason)]: a new promise, rejected with [reason]. *)
Definition q_reject {A} (reason : value) : promise A := Rejected reason.

(** The bodies of the responses whose shape the callbacks declare. *)
Record ExperimentsData := { experiments : list SerializedExperiment.t }.
Record ExperimentData := { experiment : SerializedExperiment.t }.

(** ** class Experiment *)

Module Experiment.

Record t := {
  id : string;
  name : string;
  description : string;
  plateFormat : string;
  microscopeType : string;
  mapobjectTypes : list MapobjectType;
  plateAcquisitionMode : string;
  channels : list Channel.t;
  workflowDescription : value;
  status : string
}.

Section WithChannel.
Context `{!Channel.Constructor}.

(** The callback of [args.channels.forEach] in the constructor. Its
    state is [this.channels] and the store. *)
Definition forEach_callback (st : list Channel.t * heap) (ch : loc)
    : list Channel.t * heap :=
  let '(this_channels, h) := st in
  let isFirstChannel := bool_decide (length this_channels = 0) in
  let '(ch', h') :=
    Underscore.extend ch {[ "visible" := VBool isFirstChannel ]} h in
  let channel := Channel.new (h' !!! ch') in
  (this_channels ++ [channel], h').

(** [new Experiment(args)]: the scalar fields are copied, [channels]
    starts as [[]] and is filled by the loop. *)
Definition constructor (args : SerializedExperiment.t) (h : heap)
    : t * heap :=
  let '(this_channels, h') :=
    foldl forEach_callback ([], h) (SerializedExperiment.channels args) in
  ({| id := SerializedExperiment.id args;
      name := SerializedExperiment.name args;
      description := SerializedExperiment.description args;
      status := SerializedExperiment.status args;
      plateFormat := SerializedExperiment.plate_format args;
      microscopeType := SerializedExperiment.microscope_type args;
      plateAcquisitionMode :=
        SerializedExperiment.plate_acquisition_mode args;
      mapobjectTypes := SerializedExperiment.mapobject_types args;
      workflowDescription :=
        SerializedExperiment.workflow_description args;
      channels := this_channels |}, h').

(** [get maxZoom()]: [this.channels[0].layers[0].maxZoom]. Indexing past
    the end of an array gives [undefined], and reading a property of
    [undefined] throws. *)
Definition maxZoom (this : t) : completion number :=
  match channels this !! 0 with
  | None => Throw TypeError
  | Some ch =>
      match Channel.layers ch !! 0 with
      | None => Throw TypeError
      | Some layer => Normal (Layer.maxZoom layer)
      end
  end.

(** [get maxZ()] *)
Definition maxZ (this : t) : completion number :=
  let zs := map Channel.maxZ (channels this) in
  Normal (Math.max zs).

(** [get minZ()] *)
Definition minZ (this : t) : completion number :=
  let zs := map Channel.minZ (channels this) in
  Normal (Math.min zs).

(** [exps.map((e) => new Experiment(e))]: the constructor calls run in
    the order of the array, each in the store the previous one left. *)
Fixpoint map_new (exps : list SerializedExperiment.t) (h : heap)
    : list t * heap :=
  match exps with
  | [] => ([], h)
  | e :: exps' =>
      let '(x, h1) := constructor e h in
      let '(xs, h2) := map_new exps' h1 in
      (x :: xs, h2)
  end.

(** [static getAll()] *)
Definition getAll
    (http_get : string → promise (response ExperimentsData))
    : heap → promise (list t) * heap :=
  then_ (http_get "/api/experiments") (λ resp h,
    let exps := experiments (data resp) in
    let '(r, h') := map_new exps h in
    (Normal r, h')).

(** [static get(id)] *)
Definition get
    (http_get : string → promise (response ExperimentData))
    (id : string) : heap → promise t * heap :=
  then_ (http_get ("/api/experiments/" +:+ id)) (λ resp h,
    let '(e, h') := constructor (experiment (data resp)) h in
    (Normal e, h')).

(** [static delete(id)]; the [then] callback ignores the response. *)
Definition delete {D} (http_delete : string → promise (response D))
    (id : string) (h : heap) : promise value * heap :=
  let '(p, h1) :=
    then_ (http_delete ("/api/experiments/" +:+ id))
      (λ resp h, (Normal (VBool true), h)) h in
  catch_ p (λ resp h, (resp_data_error resp, h)) h1.

(** The object literal [create] posts. *)
Definition create_body (args : CreateExperimentArgs.t) : value :=
  VObj {[
    "name" := VStr (CreateExperimentArgs.name args);
    "description" := VStr (CreateExperimentArgs.description args);
    "plate_format" := VStr (CreateExperimentArgs.plateFormat args);
    "microscope_type" := VStr (CreateExperimentArgs.microscopeType args);
    "plate_acquisition_mode" :=
      VStr (CreateExperimentArgs.plateAcquisitionMode args) ]}.

(** [static create(args)]: the callbacks settle [deferredExp], whose
    promise is what [create] returns; the promise of the
    [then]/[catch] chain itself is dropped. *)
Definition create
    (http_post : string → value → promise (response ExperimentData))
    (args : CreateExperimentArgs.t) (h : heap) : promise t * heap :=
  let deferredExp : promise t := Deferred.defer in
  let '(p, s) :=
    then_ (http_post "/api/experiments" (create_body args))
      (λ resp '(h, deferredExp),
         let '(e, h') := constructor (experiment (data resp)) h in
         (Normal undefined, (h', Deferred.resolve e deferredExp)))
      (h, deferredExp) in
  let '(_, (h', deferredExp)) :=
    catch_ p
      (λ resp '(h, deferredExp),
         match resp_data_error resp with
         | Normal err =>
             (Normal undefined, (h, Deferred.reject err deferredExp))
         | Throw exn => (Throw exn, (h, deferredExp))
         end)
      s in
  (deferredExp, h').

(** [submitWorkflow(workflowArgs)]. [console.log] leaves the modelled
    state alone. The [catch] callback builds a rejected promise with
    [$q.reject] and drops it: the callback has no [return], so it
    returns [undefined]. *)
Definition submitWorkflow
    (http_post : string → value → promise (response value))
    (this : t) (workflowArgs : value) (h : heap)
    : promise value * heap :=
  let '(p, h1) :=
    then_ (http_post ("/api/experiments/" +:+ id this +:+ "/workflow")
                     workflowArgs)
      (λ resp h, (Normal (data resp), h)) h in
  catch_ p
    (λ resp h,
       match resp_data_error resp with
       | Normal err =>
           let _ : promise value := q_reject err in
           (Normal undefined, h)
       | Throw exn => (Throw exn, h)
       end)
    h1.
End WithChannel.

End Experiment.

(** * scripts/create_conda_env.sh *)

(** The script starts with checks on the directory it is run from and
    stops at the first one that fails; the commands that follow them
    (virtualenvwrapper, pip) are programs of the host and are not
    modelled. *)
Module CreateCondaEnv.

(** What the tests [[ -d path ]] and [[ -f path ]] of the script see, for
    paths relative to the directory the script is run from. *)
Record filesystem := {
  is_directory : string → bool;
  is_regular_file : string → bool
}.

(** How the checks end: with [echo message; exit code], or with the script
    going on to set the environment up. *)
Inductive outcome :=
| Exit (code : nat) (message : string)
| GoesOn.

Definition missing (requirements : string) : string :=
  requirements +:+ " is missing from the root directory of tmlibrary".

Definition checks (fs : filesystem) : outcome :=
  if negb (is_directory fs "src") || negb (is_directory fs "docs")
     || negb (is_directory fs "scripts")
  then Exit 100 "Please execute script from the top-level folder of tmlibrary"
  else if negb (is_regular_file fs "requirements-1.txt")
  then Exit 101 (missing "requirements-1.txt")
  else if negb (is_regular_file fs "requirements-2.txt")
  then Exit 101 (missing "requirements-2.txt")
  else if negb (is_regular_file fs "requirements-Darwin-3.txt")
  then Exit 101 (missing "requirements-Darwin-3.txt")
  else GoesOn.

(** [${parameter:-word}]: [word] when the parameter is unset or empty; an
    unset parameter reads as the empty string. *)
Definition default_value (parameter word : string) : string :=
  if decide (parameter = "") then word else parameter.

(** [GC3PIE_DIR="$PWD/.gc3"] *)
Definition GC3PIE_DIR (PWD : string) : string := PWD +:+ "/.gc3".

(** [GC3PIE_CONF="${GC3PIE_DIR:-$PWD}/gc3pie.conf"] *)
Definition GC3PIE_CONF (PWD : string) : string :=
  default_value (GC3PIE_DIR PWD) PWD +:+ "/gc3pie.conf".

End CreateCondaEnv.

(** * The vocabulary of the properties *)

(** The order of numbers that are not NaN. *)
Definition number_le (x y : number) : Prop :=
  match x, y with
  | NaN, _ | _, NaN => False
  | NegInfinity, _ => True
  | _, Infinity => True
  | Int a, Int b => (a ≤ b)%Z
  | _, _ => False
  end.

(** What the spec calls the maximum (minimum) of a collection of numbers:
    a member that every member is below (above). *)
Definition maximum_of (zs : list number) (m : number) : Prop :=
  m ∈ zs ∧ ∀ z, z ∈ zs → number_le z m.

Definition minimum_of (zs : list number) (m : number) : Prop :=
  m ∈ zs ∧ ∀ z, z ∈ zs → number_le m z.

(** A computation signals an error when it completes by throwing. *)
Definition signals_error {A} (c : completion A) : Prop :=
  ∃ exn, c = Throw exn.

(** Two records that differ at most in their [visible] property. *)
Definition same_but_visible (o1 o2 : object) : Prop :=
  delete "visible" o1 = delete "visible" o2.

(** Two stores whose records differ at most in their [visible] property. *)
Definition heap_agree (h1 h2 : heap) : Prop :=
  ∀ l : loc, same_but_visible (h1 !!! l) (h2 !!! l).

(** The record the constructor of Channel receives for the entry at index
    [i] of [args.channels], a reference to [l]: the record of the store
    with [visible] set by position. *)
Definition channel_record (h : heap) (i : nat) (l : loc) : object :=
  <["visible" := VBool (bool_decide (i = 0))]> (h !!! l).

(** * Example data *)

(** An experiment with the given channels; the other fields play no part
    in the projections. *)
Definition experiment_of (chs : list Channel.t) : Experiment.t :=
  {| Experiment.id := "1";
     Experiment.name := "exp";
     Experiment.description := "";
     Experiment.plateFormat := "384";
     Experiment.microscopeType := "cellvoyager";
     Experiment.mapobjectTypes := [];
     Experiment.plateAcquisitionMode := "basic";
     Experiment.channels := chs;
     Experiment.workflowDescription := null;
     Experiment.status := "done" |}.

Definition channel_of (minZ maxZ : Z) (zooms : list nat) : Channel.t :=
  {| Channel.maxZ := Int maxZ;
     Channel.minZ := Int minZ;
     Channel.layers := (λ z, {| Layer.maxZoom := Int (Z.of_nat z) |}) <$> zooms |}.

(** The example of the spec: channels with (minZ, maxZ) = (0, 5), (-2, 3). *)
Definition two_channels : Experiment.t :=
  experiment_of [channel_of 0 5 [7; 6]; channel_of (-2) 3 [4]].

(** Both records carry a [visible] flag of their own, and the second one
    says [true]. *)
Definition dapi : object :=
  {[ "name" := VStr "DAPI"; "visible" := VBool false ]}.
Definition gfp : object :=
  {[ "name" := VStr "GFP"; "visible" := VBool true ]}.
Definition store : heap := {[ 1 := dapi; 2 := gfp ]}.

Definition serialized (chs : list loc) : SerializedExperiment.t :=
  {| SerializedExperiment.id := "7";
     SerializedExperiment.name := "exp";
     SerializedExperiment.description := "";
     SerializedExperiment.status := "done";
     SerializedExperiment.plate_format := "384";
     SerializedExperiment.microscope_type := "cellvoyager";
     SerializedExperiment.plate_acquisition_mode := "basic";
     SerializedExperiment.mapobject_types := [];
     SerializedExperiment.workflow_description := null;
     SerializedExperiment.channels := chs |}.

(** A constructor of channels for the examples: the channel shows in its
    [maxZ] whether it was constructed with [visible] true. *)
Definition sample_Channel : Channel.Constructor := λ record,
  {| Channel.maxZ :=
       match record !! "visible" with
       | Some (VBool true) => Int 1
       | _ => Int 0
       end;
     Channel.minZ := Int 0;
     Channel.layers := [ {| Layer.maxZoom := Int 6 |} ] |}.

(** A failure response whose body is [{error: err}]. *)
Definition error_response (err : value) : value :=
  VObj {[ "data" := VObj {[ "error" := err ]} ]}.

Definition failing_http {A D} (err : value) : A → promise (response D) :=
  λ _, Rejected (error_response err).

Definition succeeding_http {A D} (body : D) : A → promise (response D) :=
  λ _, Fulfilled {| data := body |}.

(** The response [$http] rejects with when the request itself fails (no
    answer from the service): there is no body, [data] is [null]. *)
Definition network_error : value :=
  VObj {[ "data" := null; "status" := VNum (Int (-1)) ]}.

Definition create_args : CreateExperimentArgs.t :=
  {| CreateExperimentArgs.name := "exp";
     CreateExperimentArgs.description := "";
     CreateExperimentArgs.plateFormat := "384";
     CreateExperimentArgs.microscopeType := "cellvoyager";
     CreateExperimentArgs.plateAcquisitionMode := "basic" |}.

(** A checkout of tmlibrary where only requirements-2.txt is missing. *)
Definition checkout_without_requirements_2 : CreateCondaEnv.filesystem :=
  {| CreateCondaEnv.is_directory := λ p,
       bool_decide (p ∈ ["src"; "docs"; "scripts"; "lib"]);
     CreateCondaEnv.is_regular_file := λ p,
       bool_decide (p ∈ ["requirements-1.txt"; "requirements-Darwin-3.txt";
                         "setup.py"]) |}.

(** A channel without layers, followed by one with a layer. *)
Definition layerless_first : Experiment.t :=
  experiment_of [channel_of 0 5 []; channel_of (-2) 3 [4]].

(** * Properties *)

(** ** The order of numbers and Math.max, Math.min *)

Ltac number_cases :=
  repeat match goal with
  | x : number |- _ => destruct x
  end;
  simpl in *; repeat case_bool_decide; simpl in *;
  try done; try lia; auto.

Lemma number_le_refl x : x ≠ NaN → number_le x x.
Proof. number_cases. Qed.

Lemma number_le_trans x y z : number_le x y → number_le y z → number_le x z.
Proof. number_cases. Qed.

Lemma number_le_NegInfinity x : number_le x NegInfinity → x = NegInfinity.
Proof. number_cases. Qed.

Lemma number_le_Infinity x : number_le Infinity x → x = Infinity.
Proof. number_cases. Qed.

Lemma max2_spec acc z :
  acc ≠ NaN → z ≠ NaN →
  Math.max2 acc z ≠ NaN ∧ number_le acc (Math.max2 acc z) ∧
  number_le z (Math.max2 acc z) ∧
  (Math.max2 acc z = acc ∨ Math.max2 acc z = z).
Proof. unfold Math.max2, Math.gt. number_cases; repeat split; number_cases. Qed.

Lemma min2_spec acc z :
  acc ≠ NaN → z ≠ NaN →
  Math.min2 acc z ≠ NaN ∧ number_le (Math.min2 acc z) acc ∧
  number_le (Math.min2 acc z) z ∧
  (Math.min2 acc z = acc ∨ Math.min2 acc z = z).
Proof. unfold Math.min2, Math.gt. number_cases; repeat split; number_cases. Qed.

Lemma foldl_max2_spec zs : ∀ acc,
  acc ≠ NaN → NaN ∉ zs →
  foldl Math.max2 acc zs ≠ NaN ∧
  number_le acc (foldl Math.max2 acc zs) ∧
  (∀ z, z ∈ zs → number_le z (foldl Math.max2 acc zs)) ∧
  (foldl Math.max2 acc zs = acc ∨ foldl Math.max2 acc zs ∈ zs).
Proof.
  induction zs as [|z zs IH]; intros acc Hacc Hzs; simpl.
  - split; [done|]. split; [by apply number_le_refl|].
    split; [|by left]. intros z Hz. by apply elem_of_nil in Hz.
  - apply not_elem_of_cons in Hzs as [Hz Hzs].
    destruct (max2_spec acc z) as (Hn & Ha & Hb & Hc); [done|by auto|].
    destruct (IH (Math.max2 acc z) Hn Hzs) as (Hn' & Ha' & Hb' & Hc').
    split; [done|]. split; [by eapply number_le_trans|].
    split.
    + intros z' [->|Hz']%elem_of_cons; [by eapply number_le_trans|by auto].
    + destruct Hc' as [Hc'|Hc'].
      * rewrite Hc'. destruct Hc as [->| ->]; [by left|right; by left].
      * right. by right.
Qed.

Lemma foldl_min2_spec zs : ∀ acc,
  acc ≠ NaN → NaN ∉ zs →
  foldl Math.min2 acc zs ≠ NaN ∧
  number_le (foldl Math.min2 acc zs) acc ∧
  (∀ z, z ∈ zs → number_le (foldl Math.min2 acc zs) z) ∧
  (foldl Math.min2 acc zs = acc ∨ foldl Math.min2 acc zs ∈ zs).
Proof.
  induction zs as [|z zs IH]; intros acc Hacc Hzs; simpl.
  - split; [done|]. split; [by apply number_le_refl|].
    split; [|by left]. intros z Hz. by apply elem_of_nil in Hz.
  - apply not_elem_of_cons in Hzs as [Hz Hzs].
    destruct (min2_spec acc z) as (Hn & Ha & Hb & Hc); [done|by auto|].
    destruct (IH (Math.min2 acc z) Hn Hzs) as (Hn' & Ha' & Hb' & Hc').
    split; [done|]. split; [by eapply number_le_trans|].
    split.
    + intros z' [->|Hz']%elem_of_cons; [by eapply number_le_trans|by auto].
    + destruct Hc' as [Hc'|Hc'].
      * rewrite Hc'. destruct Hc as [->| ->]; [by left|right; by left].
      * right. by right.
Qed.

(** For a non-empty list of numbers, none of them NaN, [Math.max] is the
    maximum. *)
Lemma Math_max_maximum zs :
  zs ≠ [] → NaN ∉ zs → maximum_of zs (Math.max zs).
Proof.
  intros Hne Hzs. unfold Math.max.
  destruct (foldl_max2_spec zs NegInfinity) as (_ & _ & Hub & Hin);
    [done|done|].
  split; [|done]. destruct Hin as [Heq|Hin]; [|done].
  destruct zs as [|z zs]; [done|].
  rewrite Heq in Hub |- *.
  assert (z = NegInfinity) as ->; [|by left].
  apply number_le_NegInfinity, Hub. by left.
Qed.

Lemma Math_min_minimum zs :
  zs ≠ [] → NaN ∉ zs → minimum_of zs (Math.min zs).
Proof.
  intros Hne Hzs. unfold Math.min.
  destruct (foldl_min2_spec zs Infinity) as (_ & _ & Hlb & Hin);
    [done|done|].
  split; [|done]. destruct Hin as [Heq|Hin]; [|done].
  destruct zs as [|z zs]; [done|].
  rewrite Heq in Hlb |- *.
  assert (z = Infinity) as ->; [|by left].
  apply number_le_Infinity, Hlb. by left.
Qed.

(** NaN among the arguments makes the result NaN. *)
Lemma Math_max_NaN zs : NaN ∈ zs → Math.max zs = NaN.
Proof.
  unfold Math.max. generalize NegInfinity.
  induction zs as [|z zs IH]; intros acc Hin; [by apply elem_of_nil in Hin|].
  assert (Habs : ∀ l, foldl Math.max2 NaN l = NaN) by (by induction l).
  simpl. apply elem_of_cons in Hin as [<-|Hin].
  - replace (Math.max2 acc NaN) with NaN by (by destruct acc). apply Habs.
  - by apply IH.
Qed.

Lemma Math_min_NaN zs : NaN ∈ zs → Math.min zs = NaN.
Proof.
  unfold Math.min. generalize Infinity.
  induction zs as [|z zs IH]; intros acc Hin; [by apply elem_of_nil in Hin|].
  assert (Habs : ∀ l, foldl Math.min2 NaN l = NaN) by (by induction l).
  simpl. apply elem_of_cons in Hin as [<-|Hin].
  - replace (Math.min2 acc NaN) with NaN by (by destruct acc). apply Habs.
  - by apply IH.
Qed.

(** ** The derived projections *)

Example two_channels_maxZ : Experiment.maxZ two_channels = Normal (Int 5).
Proof. reflexivity. Qed.

Example two_channels_minZ : Experiment.minZ two_channels = Normal (Int (-2)).
Proof. reflexivity. Qed.

Example two_channels_maxZoom :
  Experiment.maxZoom two_channels = Normal (Int 7).
Proof. reflexivity. Qed.

(** C3: for an experiment with at least one channel (the channels' maxZ
    and minZ being numbers, not NaN), [maxZ] is the maximum over all
    channels of the channel's own maxZ, and [minZ] is the minimum over all
    channels of the channel's own minZ. *)
Theorem maxZ_minZ_aggregate (e : Experiment.t) :
  Experiment.channels e ≠ [] →
  NaN ∉ map Channel.maxZ (Experiment.channels e) →
  NaN ∉ map Channel.minZ (Experiment.channels e) →
  (∃ m, Experiment.maxZ e = Normal m ∧
        maximum_of (map Channel.maxZ (Experiment.channels e)) m) ∧
  (∃ m, Experiment.minZ e = Normal m ∧
        minimum_of (map Channel.minZ (Experiment.channels e)) m).
Proof.
  intros Hne Hmax Hmin.
  assert (Hmap : ∀ f : Channel.t → number, map f (Experiment.channels e) ≠ []).
  { intros f. destruct (Experiment.channels e); [done|discriminate]. }
  split; eexists; (split; [reflexivity|]).
  - by apply Math_max_maximum.
  - by apply Math_min_minimum.
Qed.

Lemma maxZ_minZ_aggregate_witness :
  (∃ m, Experiment.maxZ two_channels = Normal m ∧
        maximum_of [Int 5; Int 3] m) ∧
  (∃ m, Experiment.minZ two_channels = Normal m ∧
        minimum_of [Int 0; Int (-2)] m).
Proof.
  apply (maxZ_minZ_aggregate two_channels).
  - discriminate.
  - simpl. rewrite !not_elem_of_cons. repeat split; try discriminate.
    apply not_elem_of_nil.
  - simpl. rewrite !not_elem_of_cons. repeat split; try discriminate.
    apply not_elem_of_nil.
Defined.

(** C4: when the first channel has a first layer, [maxZoom] is that layer's
    maxZoom, and every experiment with the same first layer of the first
    channel has the same [maxZoom], whatever its other layers, channels and
    fields are. *)
Theorem maxZoom_first_layer (e : Experiment.t) (ch : Channel.t)
    (layer : Layer.t) :
  Experiment.channels e !! 0 = Some ch →
  Channel.layers ch !! 0 = Some layer →
  Experiment.maxZoom e = Normal (Layer.maxZoom layer) ∧
  ∀ (e' : Experiment.t) (ch' : Channel.t),
    Experiment.channels e' !! 0 = Some ch' →
    Channel.layers ch' !! 0 = Some layer →
    Experiment.maxZoom e' = Experiment.maxZoom e.
Proof.
  intros Hch Hlayer. unfold Experiment.maxZoom.
  rewrite Hch, Hlayer. split; [done|].
  intros e' ch' -> ->. done.
Qed.

Lemma maxZoom_first_layer_witness :
  Experiment.maxZoom two_channels = Normal (Int 7) ∧
  ∀ (e' : Experiment.t) (ch' : Channel.t),
    Experiment.channels e' !! 0 = Some ch' →
    Channel.layers ch' !! 0 = Some {| Layer.maxZoom := Int 7 |} →
    Experiment.maxZoom e' = Experiment.maxZoom two_channels.
Proof.
  apply (maxZoom_first_layer two_channels (channel_of 0 5 [7; 6])
           {| Layer.maxZoom := Int 7 |}); reflexivity.
Defined.

(** The other channels and layers can carry any zoom values. *)
Example maxZoom_ignores_the_rest :
  Experiment.maxZoom
    (experiment_of [channel_of 1 2 [7; 0]; channel_of 0 9 [1; 12]])
  = Experiment.maxZoom two_channels.
Proof. reflexivity. Qed.

(** C9, as stated, fails: with no channels [maxZ] and [minZ] do not signal
    an error; [Math.max] and [Math.min] of no arguments are -Infinity and
    +Infinity. *)
Lemma empty_maxZ_minZ_no_error :
  Experiment.channels (experiment_of []) = [] ∧
  Experiment.maxZ (experiment_of []) = Normal NegInfinity ∧
  Experiment.minZ (experiment_of []) = Normal Infinity ∧
  ¬ signals_error (Experiment.maxZ (experiment_of [])) ∧
  ¬ signals_error (Experiment.minZ (experiment_of [])).
Proof.
  repeat split; intros [exn Hexn]; discriminate.
Qed.

(** C9, amended: with no channels, [maxZoom] signals a TypeError where it
    reads [layers] of the missing first channel, while [maxZ] evaluates to
    -Infinity and [minZ] to +Infinity without an error. *)
Theorem empty_channels_projections (e : Experiment.t) :
  Experiment.channels e = [] →
  Experiment.maxZoom e = Throw TypeError ∧
  signals_error (Experiment.maxZoom e) ∧
  Experiment.maxZ e = Normal NegInfinity ∧
  Experiment.minZ e = Normal Infinity.
Proof.
  intros He. unfold Experiment.maxZoom, Experiment.maxZ, Experiment.minZ.
  rewrite He. repeat split. by exists TypeError.
Qed.

Lemma empty_channels_projections_witness :
  Experiment.maxZoom (experiment_of []) = Throw TypeError ∧
  signals_error (Experiment.maxZoom (experiment_of [])) ∧
  Experiment.maxZ (experiment_of []) = Normal NegInfinity ∧
  Experiment.minZ (experiment_of []) = Normal Infinity.
Proof. apply (empty_channels_projections (experiment_of [])). reflexivity. Defined.

(** ** The constructor *)

Lemma heap_agree_refl h : heap_agree h h.
Proof. by intros l. Qed.

Lemma heap_agree_trans h1 h2 h3 :
  heap_agree h1 h2 → heap_agree h2 h3 → heap_agree h1 h3.
Proof. intros H12 H23 l. unfold same_but_visible. by rewrite H12, H23. Qed.

Lemma insert_visible_agree (o1 o2 : object) (v : value) :
  same_but_visible o1 o2 → <["visible" := v]> o1 = <["visible" := v]> o2.
Proof.
  unfold same_but_visible. intros Hd.
  by rewrite <- (insert_delete_eq o1), <- (insert_delete_eq o2), Hd.
Qed.

Lemma channel_record_agree h1 h2 i l :
  heap_agree h1 h2 → channel_record h1 i l = channel_record h2 i l.
Proof. intros Hag. apply insert_visible_agree, Hag. Qed.

Lemma heap_agree_insert h h0 i l :
  heap_agree h h0 → heap_agree (<[l := channel_record h i l]> h) h0.
Proof.
  intros Hag l'. destruct (decide (l = l')) as [->|Hne].
  - rewrite lookup_total_insert_eq. unfold channel_record, same_but_visible.
    rewrite delete_insert_eq. apply Hag.
  - rewrite lookup_total_insert_ne by done. apply Hag.
Qed.

Section Constructor.
Context `{!Channel.Constructor}.

(** One turn of the loop, in closed form. *)
Lemma forEach_callback_eq (cs : list Channel.t) (h : heap) (l : loc) :
  Experiment.forEach_callback (cs, h) l =
    (cs ++ [Channel.new (channel_record h (length cs) l)],
     <[l := channel_record h (length cs) l]> h).
Proof.
  unfold Experiment.forEach_callback, Underscore.extend, channel_record.
  by rewrite lookup_total_insert_eq, <- insert_union_singleton_l.
Qed.

(** The channels the loop builds: one per entry, in the order of the
    entries, each from the record of the store before the loop with
    [visible] set by position. *)
Lemma forEach_channels (h0 : heap) (locs : list loc) :
  ∀ (cs : list Channel.t) (h : heap),
    heap_agree h h0 →
    (foldl Experiment.forEach_callback (cs, h) locs).1 =
      cs ++ imap (λ i l, Channel.new (channel_record h0 (length cs + i) l))
                 locs ∧
    heap_agree (foldl Experiment.forEach_callback (cs, h) locs).2 h0.
Proof.
  induction locs as [|l locs IH]; intros cs h Hag; cbn [foldl].
  - simpl. by rewrite app_nil_r.
  - rewrite forEach_callback_eq.
    destruct (IH (cs ++ [Channel.new (channel_record h (length cs) l)])
                 (<[l := channel_record h (length cs) l]> h)) as [IH1 IH2].
    { by apply heap_agree_insert. }
    split; [|done].
    rewrite IH1, <- app_assoc. f_equal. simpl.
    rewrite Nat.add_0_r, (channel_record_agree h h0) by done. f_equal.
    apply imap_ext. intros i x _. simpl.
    rewrite length_app. simpl. do 2 f_equal. lia.
Qed.

(** What the loop leaves in the store. *)
Lemma forEach_heap (h0 : heap) (locs : list loc) :
  ∀ (cs : list Channel.t) (h : heap),
    heap_agree h h0 →
    (∀ l, l ∉ locs →
       (foldl Experiment.forEach_callback (cs, h) locs).2 !! l = h !! l) ∧
    (∀ i l, locs !! i = Some l →
       ∃ b : bool,
         (foldl Experiment.forEach_callback (cs, h) locs).2 !! l =
           Some (<["visible" := VBool b]> (h0 !!! l)) ∧
         (l ∉ drop (S i) locs → b = bool_decide (length cs + i = 0))).
Proof.
  induction locs as [|l0 locs IH]; intros cs h Hag; cbn [foldl].
  - simpl. split; [done|]. intros i l Hi. by rewrite lookup_nil in Hi.
  - rewrite forEach_callback_eq.
    destruct (IH (cs ++ [Channel.new (channel_record h (length cs) l0)])
                 (<[l0 := channel_record h (length cs) l0]> h))
      as [IHout IHin].
    { by apply heap_agree_insert. }
    split.
    + intros l [Hne Hl]%not_elem_of_cons.
      rewrite IHout by done. by rewrite lookup_insert_ne.
    + intros [|i] l Hi; simpl in Hi.
      * injection Hi as ->. destruct (decide (l ∈ locs)) as [Hin|Hnin].
        -- apply list_elem_of_lookup in Hin as [j Hj].
           destruct (IHin j l Hj) as (b & Hb & _).
           exists b. split; [done|]. intros Hd. simpl in Hd.
           rewrite drop_0 in Hd. exfalso. apply Hd.
           apply list_elem_of_lookup. by exists j.
        -- exists (bool_decide (length cs + 0 = 0)). split; [|done].
           rewrite IHout, lookup_insert_eq by done.
           rewrite Nat.add_0_r.
           by rewrite (channel_record_agree h h0).
      * destruct (IHin i l Hi) as (b & Hb & Hlast).
        exists b. split; [done|]. intros Hd. simpl in Hd.
        rewrite Hlast by done. rewrite length_app. simpl.
        apply bool_decide_ext. lia.
Qed.

Lemma constructor_channels (args : SerializedExperiment.t) (h : heap) :
  Experiment.channels (Experiment.constructor args h).1 =
    imap (λ i l, Channel.new (channel_record h i l))
         (SerializedExperiment.channels args).
Proof.
  unfold Experiment.constructor.
  destruct (forEach_channels h (SerializedExperiment.channels args) [] h)
    as [Hcs _]; [apply heap_agree_refl|].
  destruct (foldl _ _ _) as [cs h']. simpl in *. by rewrite Hcs.
Qed.

Lemma constructor_heap_agree (args : SerializedExperiment.t) (h : heap) :
  heap_agree (Experiment.constructor args h).2 h.
Proof.
  unfold Experiment.constructor.
  destruct (forEach_channels h (SerializedExperiment.channels args) [] h)
    as [_ Hag]; [apply heap_agree_refl|].
  by destruct (foldl _ _ _) as [cs h'].
Qed.

(** The experiment that is constructed does not depend on the [visible]
    properties the records carry. *)
Lemma constructor_agree (args : SerializedExperiment.t) (h1 h2 : heap) :
  heap_agree h1 h2 →
  (Experiment.constructor args h1).1 = (Experiment.constructor args h2).1.
Proof.
  intros Hag.
  pose proof (constructor_channels args h1) as H1.
  pose proof (constructor_channels args h2) as H2.
  unfold Experiment.constructor in *.
  destruct (foldl _ _ _) as [cs1 h1'].
  destruct (foldl _ _ _) as [cs2 h2']. simpl in *.
  f_equal. rewrite H1, H2. apply imap_ext. intros i l _. simpl.
  by rewrite (channel_record_agree h1 h2).
Qed.
End Constructor.

Example constructor_two_channels :
  Experiment.channels
    (Experiment.constructor (H := sample_Channel) (serialized [1; 2]) store).1
  = [ sample_Channel {[ "name" := VStr "DAPI"; "visible" := VBool true ]};
      sample_Channel {[ "name" := VStr "GFP"; "visible" := VBool false ]} ].
Proof. reflexivity. Qed.

(** The same record twice: two channels all the same. *)
Example constructor_no_deduplication :
  Experiment.channels
    (Experiment.constructor (H := sample_Channel) (serialized [2; 2]) store).1
  = [ sample_Channel {[ "name" := VStr "GFP"; "visible" := VBool true ]};
      sample_Channel {[ "name" := VStr "GFP"; "visible" := VBool false ]} ].
Proof. reflexivity. Qed.

Section ConstructorClaims.
Context `{!Channel.Constructor}.

(** The channel at index [i] is the constructor of Channel applied to
    the source record with [visible] replaced by [i = 0]. *)
Lemma constructor_channel_at (args : SerializedExperiment.t) (h : heap)
    (i : nat) (l : loc) :
  SerializedExperiment.channels args !! i = Some l →
  ∃ record : object,
    Experiment.channels (Experiment.constructor args h).1 !! i =
      Some (Channel.new record) ∧
    same_but_visible record (h !!! l) ∧
    record !! "visible" = Some (VBool (bool_decide (i = 0))).
Proof.
  intros Hl. exists (channel_record h i l).
  rewrite constructor_channels, list_lookup_imap, Hl.
  split; [done|]. unfold channel_record, same_but_visible.
  by rewrite delete_insert_eq, lookup_insert_eq.
Qed.
End ConstructorClaims.

(** C1: constructing an Experiment from a record with N >= 1 channel
    entries gives exactly N channels; the channel at index i is constructed
    from the record of entry i (no entry is dropped, merged or moved), and
    it is constructed with [visible = true] at index 0 and with
    [visible = false] at every other index. *)
Theorem constructor_channels_in_order `{!Channel.Constructor}
    (args : SerializedExperiment.t) (h : heap) :
  (1 ≤ length (SerializedExperiment.channels args))%nat →
  length (Experiment.channels (Experiment.constructor args h).1) =
    length (SerializedExperiment.channels args) ∧
  (∀ i l, SerializedExperiment.channels args !! i = Some l →
     ∃ record : object,
       Experiment.channels (Experiment.constructor args h).1 !! i =
         Some (Channel.new record) ∧
       same_but_visible record (h !!! l) ∧
       record !! "visible" = Some (VBool (bool_decide (i = 0)))) ∧
  (∃ record : object,
     Experiment.channels (Experiment.constructor args h).1 !! 0 =
       Some (Channel.new record) ∧
     record !! "visible" = Some (VBool true)).
Proof.
  intros HN. split; [|split].
  - by rewrite constructor_channels, length_imap.
  - intros i l Hl. by apply constructor_channel_at.
  - destruct (SerializedExperiment.channels args) as [|l ls] eqn:Hchs;
      [simpl in HN; lia|].
    destruct (constructor_channel_at args h 0 l) as (record & H1 & _ & H2).
    { by rewrite Hchs. }
    by exists record.
Qed.

Lemma constructor_channels_in_order_witness :
  length (Experiment.channels
    (Experiment.constructor (H := sample_Channel)
       (serialized [1; 2]) store).1) = 2 ∧
  (∀ i l, [1; 2] !! i = Some l →
     ∃ record : object,
       Experiment.channels
         (Experiment.constructor (H := sample_Channel)
            (serialized [1; 2]) store).1 !! i =
         Some (sample_Channel record) ∧
       same_but_visible record (store !!! l) ∧
       record !! "visible" = Some (VBool (bool_decide (i = 0)))) ∧
  (∃ record : object,
     Experiment.channels
       (Experiment.constructor (H := sample_Channel)
          (serialized [1; 2]) store).1 !! 0 =
       Some (sample_Channel record) ∧
     record !! "visible" = Some (VBool true)).
Proof.
  apply (constructor_channels_in_order (H := sample_Channel)
           (serialized [1; 2]) store).
  simpl. lia.
Defined.

(** C2, as stated, fails: the second record says [visible: true], yet the
    second channel is constructed with [visible: false], whatever the
    constructor of Channel is, and the record itself says [false]
    afterwards. *)
Lemma second_channel_flag_not_preserved :
  (store !!! 2) !! "visible" = Some (VBool true) ∧
  (∀ C : Channel.Constructor,
     Experiment.channels
       (Experiment.constructor (H := C) (serialized [1; 2]) store).1 !! 1 =
       Some (C {[ "name" := VStr "GFP"; "visible" := VBool false ]})) ∧
  ((Experiment.constructor (H := sample_Channel)
      (serialized [1; 2]) store).2 !!! 2) !! "visible" =
    Some (VBool false).
Proof.
  split; [reflexivity|]. split; [|reflexivity].
  intros C. rewrite constructor_channels. reflexivity.
Qed.

(** C2, amended: the forced flag takes precedence over the record's own
    flag for every channel, not for the first only. Whatever [visible] the
    record of entry i carries, channel i is constructed with [visible] set
    to [i = 0], and the experiment that is constructed is the same for any
    two stores whose records differ in their [visible] flags only. *)
Theorem visible_forced_for_every_channel `{!Channel.Constructor}
    (args : SerializedExperiment.t) (h : heap) (i : nat) (l : loc)
    (v : value) :
  SerializedExperiment.channels args !! i = Some l →
  (h !!! l) !! "visible" = Some v →
  (∃ record : object,
     Experiment.channels (Experiment.constructor args h).1 !! i =
       Some (Channel.new record) ∧
     same_but_visible record (h !!! l) ∧
     record !! "visible" = Some (VBool (bool_decide (i = 0)))) ∧
  (∀ h2 : heap, heap_agree h h2 →
     (Experiment.constructor args h2).1 = (Experiment.constructor args h).1).
Proof.
  intros Hl _. split; [by apply constructor_channel_at|].
  intros h2 Hag. symmetry. by apply constructor_agree.
Qed.

Lemma visible_forced_for_every_channel_witness :
  (∃ record : object,
     Experiment.channels
       (Experiment.constructor (H := sample_Channel)
          (serialized [1; 2]) store).1 !! 1 =
       Some (sample_Channel record) ∧
     same_but_visible record (store !!! 2) ∧
     record !! "visible" = Some (VBool (bool_decide (1 = 0)))) ∧
  (∀ h2 : heap, heap_agree store h2 →
     (Experiment.constructor (H := sample_Channel) (serialized [1; 2]) h2).1 =
     (Experiment.constructor (H := sample_Channel)
        (serialized [1; 2]) store).1).
Proof.
  apply (visible_forced_for_every_channel (H := sample_Channel)
           (serialized [1; 2]) store 1 2 (VBool true)); reflexivity.
Defined.

(** C10: construction writes into the records it is given. For each entry
    of [args.channels], the object the entry refers to is, afterwards, the
    object it was with a [visible] property written into it (the flag of
    the entry's index when no object is listed twice); objects that are not
    listed are left as they were. *)
Theorem constructor_mutates_records `{!Channel.Constructor}
    (args : SerializedExperiment.t) (h : heap) :
  (∀ i l, SerializedExperiment.channels args !! i = Some l →
     ∃ b : bool,
       (Experiment.constructor args h).2 !! l =
         Some (<["visible" := VBool b]> (h !!! l)) ∧
       (NoDup (SerializedExperiment.channels args) →
        b = bool_decide (i = 0))) ∧
  (∀ l, l ∉ SerializedExperiment.channels args →
     (Experiment.constructor args h).2 !! l = h !! l).
Proof.
  destruct (forEach_heap h (SerializedExperiment.channels args) [] h)
    as [Hout Hin]; [apply heap_agree_refl|].
  unfold Experiment.constructor.
  destruct (foldl _ _ _) as [cs h']. simpl in *.
  split; [|done].
  intros i l Hl. destruct (Hin i l Hl) as (b & Hb & Hlast).
  exists b. split; [done|]. intros Hnd. apply Hlast.
  rewrite <- (take_drop_middle _ i l Hl) in Hnd.
  apply NoDup_app in Hnd as (_ & _ & Hnd).
  by apply NoDup_cons in Hnd as [Hnd _].
Qed.

Example constructor_store_after :
  (Experiment.constructor (H := sample_Channel) (serialized [1; 2]) store).2
  = {[ 1 := {[ "name" := VStr "DAPI"; "visible" := VBool true ]};
       2 := {[ "name" := VStr "GFP"; "visible" := VBool false ]} ]}.
Proof. reflexivity. Qed.

(** ** The lifecycle operations *)

Section Lifecycle.
Context `{!Channel.Constructor}.

(** The experiments [map] builds are those each record gives on its own:
    what an earlier constructor call writes into the store is the
    [visible] flags, which a later call overwrites before it reads. *)
Lemma map_new_spec (h0 : heap) (recs : list SerializedExperiment.t) :
  ∀ h : heap,
    heap_agree h h0 →
    (Experiment.map_new recs h).1 =
      (λ r, (Experiment.constructor r h0).1) <$> recs ∧
    heap_agree (Experiment.map_new recs h).2 h0.
Proof.
  induction recs as [|r recs IH]; intros h Hag; [done|].
  cbn [Experiment.map_new].
  pose proof (constructor_agree r h h0 Hag) as Hr.
  pose proof (constructor_heap_agree r h) as Hh.
  destruct (Experiment.constructor r h) as [x h1]. simpl in Hr, Hh.
  destruct (IH h1) as [IH1 IH2]; [by eapply heap_agree_trans|].
  destruct (Experiment.map_new recs h1) as [xs h2]. simpl in *.
  by rewrite Hr, IH1.
Qed.
End Lifecycle.

Example error_response_payload (err : value) :
  resp_data_error (error_response err) = Normal err.
Proof. reflexivity. Qed.

(** C8: when the service answers [getAll] with a list of records, the
    promise is fulfilled with one Experiment per record, in the order of
    the list: the experiment at index i is the one constructed from the
    record at index i. *)
Theorem getAll_in_order `{!Channel.Constructor}
    (http_get : string → promise (response ExperimentsData))
    (recs : list SerializedExperiment.t) (h : heap) :
  http_get "/api/experiments" =
    Fulfilled {| data := {| experiments := recs |} |} →
  ∃ exps : list Experiment.t,
    (Experiment.getAll http_get h).1 = Fulfilled exps ∧
    exps = (λ r, (Experiment.constructor r h).1) <$> recs ∧
    length exps = length recs ∧
    ∀ i r, recs !! i = Some r →
      exps !! i = Some (Experiment.constructor r h).1.
Proof.
  intros Hget. eexists. split; [|split; [reflexivity|split]].
  - unfold Experiment.getAll, then_. rewrite Hget. simpl.
    destruct (map_new_spec h recs h (heap_agree_refl h)) as [Hmap _].
    destruct (Experiment.map_new recs h) as [exps h']. simpl in *.
    by rewrite Hmap.
  - by rewrite length_fmap.
  - intros i r Hr. by rewrite list_lookup_fmap, Hr.
Qed.

Lemma getAll_in_order_witness :
  ∃ exps : list Experiment.t,
    (Experiment.getAll (H := sample_Channel)
       (succeeding_http
          {| experiments := [serialized [1; 2]; serialized [2]] |})
       store).1 = Fulfilled exps ∧
    exps = (λ r, (Experiment.constructor (H := sample_Channel) r store).1)
             <$> [serialized [1; 2]; serialized [2]] ∧
    length exps = 2 ∧
    ∀ i r, [serialized [1; 2]; serialized [2]] !! i = Some r →
      exps !! i =
        Some (Experiment.constructor (H := sample_Channel) r store).1.
Proof.
  apply (getAll_in_order (H := sample_Channel)
           (succeeding_http
              {| experiments := [serialized [1; 2]; serialized [2]] |})
           [serialized [1; 2]; serialized [2]] store).
  reflexivity.
Defined.

(** C7, as stated, fails: when the transport fails with a response without
    a body, [resp.data.error] throws in the rejection callback before
    [deferredExp.reject] is reached, and the promise [create] returns is
    not rejected: it is never settled. *)
Lemma create_bodyless_failure_never_settles :
  resp_data_error network_error = Throw TypeError ∧
  (Experiment.create (H := sample_Channel)
     (λ url body, Rejected network_error) create_args store).1 = Pending ∧
  ∀ reason,
    (Experiment.create (H := sample_Channel)
       (λ url body, Rejected network_error) create_args store).1 ≠
      Rejected reason.
Proof. split; [reflexivity|]. split; [reflexivity|]. discriminate. Qed.

(** C7, amended: when the transport fails with a response that carries a
    body, so that [resp.data.error] evaluates to the service's error
    payload, the promise [create] returns is rejected with that payload;
    when the transport succeeds with record e, it is fulfilled with the
    Experiment constructed from e. *)
Theorem create_outcome `{!Channel.Constructor}
    (http_post : string → value → promise (response ExperimentData))
    (args : CreateExperimentArgs.t) (h : heap) :
  (∀ resp err,
     http_post "/api/experiments" (Experiment.create_body args) =
       Rejected resp →
     resp_data_error resp = Normal err →
     (Experiment.create http_post args h).1 = Rejected err) ∧
  (∀ e,
     http_post "/api/experiments" (Experiment.create_body args) =
       Fulfilled {| data := {| experiment := e |} |} →
     (Experiment.create http_post args h).1 =
       Fulfilled (Experiment.constructor e h).1).
Proof.
  split.
  - intros resp err Hpost Herr. unfold Experiment.create.
    rewrite Hpost. simpl. by rewrite Herr.
  - intros e Hpost. unfold Experiment.create.
    rewrite Hpost. simpl. by destruct (Experiment.constructor e h).
Qed.

Lemma create_outcome_witness :
  (Experiment.create (H := sample_Channel)
     (λ url, failing_http (VStr "name taken")) create_args store).1 =
    Rejected (VStr "name taken") ∧
  (Experiment.create (H := sample_Channel)
     (λ url, succeeding_http {| experiment := serialized [1; 2] |})
     create_args store).1 =
    Fulfilled
      (Experiment.constructor (H := sample_Channel)
         (serialized [1; 2]) store).1.
Proof.
  split.
  - apply (proj1 (create_outcome (H := sample_Channel)
             (λ url, failing_http (VStr "name taken")) create_args store)
             (error_response (VStr "name taken")) (VStr "name taken"));
      reflexivity.
  - apply (proj2 (create_outcome (H := sample_Channel)
             (λ url, succeeding_http {| experiment := serialized [1; 2] |})
             create_args store) (serialized [1; 2])).
    reflexivity.
Defined.

(** C6, as stated, fails: when the transport fails with a response without
    a body, [resp.data.error] throws in the rejection callback, and the
    promise [delete] returns is rejected with the TypeError instead of
    being fulfilled. *)
Lemma delete_bodyless_failure_is_rejected :
  resp_data_error network_error = Throw TypeError ∧
  (Experiment.delete (D := value)
     (λ url, Rejected network_error) "7" store).1 = Rejected TypeError ∧
  ∀ v,
    (Experiment.delete (D := value)
       (λ url, Rejected network_error) "7" store).1 ≠ Fulfilled v.
Proof. split; [reflexivity|]. split; [reflexivity|]. discriminate. Qed.

(** C6, amended: for every id, when the transport fails with a response
    that carries a body, so that [resp.data.error] evaluates to the
    service's error payload, the promise [delete] returns is fulfilled, not
    rejected, and its value is that payload; when the transport succeeds,
    it is fulfilled with [true], whatever the response holds. *)
Theorem delete_outcome {D : Type}
    (http_delete : string → promise (response D)) (id : string) (h : heap) :
  (∀ resp err,
     http_delete ("/api/experiments/" +:+ id) = Rejected resp →
     resp_data_error resp = Normal err →
     (Experiment.delete http_delete id h).1 = Fulfilled err) ∧
  (∀ resp : response D,
     http_delete ("/api/experiments/" +:+ id) = Fulfilled resp →
     (Experiment.delete http_delete id h).1 = Fulfilled (VBool true)).
Proof.
  split.
  - intros resp err Hdel Herr. unfold Experiment.delete.
    rewrite Hdel. simpl. by rewrite Herr.
  - intros resp Hdel. unfold Experiment.delete. by rewrite Hdel.
Qed.

Lemma delete_outcome_witness :
  (Experiment.delete (D := value)
     (failing_http (VStr "no such experiment")) "7" store).1 =
    Fulfilled (VStr "no such experiment") ∧
  (Experiment.delete (succeeding_http (VStr "anything")) "7" store).1 =
    Fulfilled (VBool true).
Proof.
  split.
  - apply (proj1 (delete_outcome (D := value)
             (failing_http (VStr "no such experiment")) "7" store)
             (error_response (VStr "no such experiment"))
             (VStr "no such experiment")); reflexivity.
  - apply (proj2 (delete_outcome (succeeding_http (VStr "anything"))
             "7" store) {| data := VStr "anything" |}).
    reflexivity.
Defined.

(** C5, as stated, fails: when the transport fails with a response without
    a body, [resp.data.error] throws in the rejection callback, and the
    promise [submitWorkflow] returns is rejected with the TypeError: the
    caller does observe this failure as a rejection. *)
Lemma submitWorkflow_bodyless_failure_is_rejected :
  resp_data_error network_error = Throw TypeError ∧
  (Experiment.submitWorkflow (λ url body, Rejected network_error)
     two_channels null store).1 = Rejected TypeError.
Proof. split; reflexivity. Qed.

(** C5, amended: when the transport fails with a response that carries a
    body, so that [resp.data.error] evaluates to the service's error
    payload, the promise [submitWorkflow] returns is not rejected, neither
    with that payload nor with anything else: the rejection built by
    [$q.reject] is dropped and the promise is fulfilled with [undefined].
    When the transport succeeds, the promise is fulfilled with the body of
    the response as it is. *)
Theorem submitWorkflow_outcome
    (http_post : string → value → promise (response value))
    (this : Experiment.t) (workflowArgs : value) (h : heap) :
  (∀ resp err,
     http_post ("/api/experiments/" +:+ Experiment.id this +:+ "/workflow")
               workflowArgs = Rejected resp →
     resp_data_error resp = Normal err →
     (Experiment.submitWorkflow http_post this workflowArgs h).1 =
       Fulfilled undefined ∧
     ∀ reason,
       (Experiment.submitWorkflow http_post this workflowArgs h).1 ≠
         Rejected reason) ∧
  (∀ resp : response value,
     http_post ("/api/experiments/" +:+ Experiment.id this +:+ "/workflow")
               workflowArgs = Fulfilled resp →
     (Experiment.submitWorkflow http_post this workflowArgs h).1 =
       Fulfilled (data resp)).
Proof.
  split.
  - intros resp err Hpost Herr. unfold Experiment.submitWorkflow.
    rewrite Hpost. simpl. rewrite Herr. by split.
  - intros resp Hpost. unfold Experiment.submitWorkflow. by rewrite Hpost.
Qed.

Lemma submitWorkflow_outcome_witness :
  (Experiment.submitWorkflow (λ url, failing_http (VStr "bad workflow"))
     two_channels null store).1 = Fulfilled undefined ∧
  (Experiment.submitWorkflow (λ url, succeeding_http (VStr "submitted"))
     two_channels null store).1 = Fulfilled (VStr "submitted").
Proof.
  split.
  - apply (proj1 (submitWorkflow_outcome
             (λ url, failing_http (VStr "bad workflow"))
             two_channels null store)
             (error_response (VStr "bad workflow")) (VStr "bad workflow"));
      reflexivity.
  - apply (proj2 (submitWorkflow_outcome
             (λ url, succeeding_http (VStr "submitted"))
             two_channels null store) {| data := VStr "submitted" |}).
    reflexivity.
Defined.

(** ** What the operations do in the remaining cases *)

(** [get(id)] is fulfilled with the Experiment constructed from the record
    of the response. *)
Lemma get_fulfilled `{!Channel.Constructor}
    (http_get : string → promise (response ExperimentData))
    (id : string) (e : SerializedExperiment.t) (h : heap) :
  http_get ("/api/experiments/" +:+ id) =
    Fulfilled {| data := {| experiment := e |} |} →
  (Experiment.get http_get id h).1 = Fulfilled (Experiment.constructor e h).1.
Proof.
  intros Hget. unfold Experiment.get, then_. rewrite Hget. simpl.
  by destruct (Experiment.constructor e h).
Qed.

(** [getAll] and [get] have no rejection callback: a rejection of the
    transport is the rejection of their promise. *)
Lemma getAll_rejected `{!Channel.Constructor}
    (http_get : string → promise (response ExperimentsData))
    (resp : value) (h : heap) :
  http_get "/api/experiments" = Rejected resp →
  Experiment.getAll http_get h = (Rejected resp, h).
Proof. intros Hget. unfold Experiment.getAll, then_. by rewrite Hget. Qed.

(** A failure response without a body: [resp.data.error] throws inside the
    rejection callback. The promises of [delete] and [submitWorkflow] are
    then rejected with the exception, and the promise of [create] is never
    settled. *)
Lemma delete_failure_without_body {D : Type}
    (http_delete : string → promise (response D)) (id : string) (h : heap)
    (resp exn : value) :
  http_delete ("/api/experiments/" +:+ id) = Rejected resp →
  resp_data_error resp = Throw exn →
  (Experiment.delete http_delete id h).1 = Rejected exn.
Proof.
  intros Hdel Herr. unfold Experiment.delete. rewrite Hdel. simpl.
  by rewrite Herr.
Qed.

Lemma submitWorkflow_failure_without_body
    (http_post : string → value → promise (response value))
    (this : Experiment.t) (workflowArgs : value) (h : heap)
    (resp exn : value) :
  http_post ("/api/experiments/" +:+ Experiment.id this +:+ "/workflow")
            workflowArgs = Rejected resp →
  resp_data_error resp = Throw exn →
  (Experiment.submitWorkflow http_post this workflowArgs h).1 = Rejected exn.
Proof.
  intros Hpost Herr. unfold Experiment.submitWorkflow. rewrite Hpost. simpl.
  by rewrite Herr.
Qed.

Lemma create_failure_without_body `{!Channel.Constructor}
    (http_post : string → value → promise (response ExperimentData))
    (args : CreateExperimentArgs.t) (h : heap) (resp exn : value) :
  http_post "/api/experiments" (Experiment.create_body args) =
    Rejected resp →
  resp_data_error resp = Throw exn →
  (Experiment.create http_post args h).1 = Pending.
Proof.
  intros Hpost Herr. unfold Experiment.create. rewrite Hpost. simpl.
  by rewrite Herr.
Qed.

Example no_body_throws :
  resp_data_error (VObj {[ "data" := null ]}) = Throw TypeError.
Proof. reflexivity. Qed.

(** * Further properties *)

(** ** The projections at their edges *)

Lemma number_le_antisym x y : number_le x y → number_le y x → x = y.
Proof. intros Hxy Hyx. number_cases. f_equal. lia. Qed.

Lemma number_le_not_NaN x y : number_le x y → x ≠ NaN ∧ y ≠ NaN.
Proof. number_cases. Qed.

Lemma max2_NaN acc z : Math.max2 acc z = NaN → acc = NaN ∨ z = NaN.
Proof. unfold Math.max2, Math.gt. number_cases. Qed.

Lemma min2_NaN acc z : Math.min2 acc z = NaN → acc = NaN ∨ z = NaN.
Proof. unfold Math.min2, Math.gt. number_cases. Qed.

Lemma foldl_max2_NaN zs : ∀ acc,
  foldl Math.max2 acc zs = NaN → acc = NaN ∨ NaN ∈ zs.
Proof.
  induction zs as [|z zs IH]; intros acc Hfold; simpl in Hfold; [by left|].
  destruct (IH _ Hfold) as [[->| ->]%max2_NaN|Hin].
  - by left.
  - right. by left.
  - right. by right.
Qed.

Lemma foldl_min2_NaN zs : ∀ acc,
  foldl Math.min2 acc zs = NaN → acc = NaN ∨ NaN ∈ zs.
Proof.
  induction zs as [|z zs IH]; intros acc Hfold; simpl in Hfold; [by left|].
  destruct (IH _ Hfold) as [[->| ->]%min2_NaN|Hin].
  - by left.
  - right. by left.
  - right. by right.
Qed.

Lemma Math_max_NaN_iff zs : Math.max zs = NaN ↔ NaN ∈ zs.
Proof.
  split; [|apply Math_max_NaN].
  intros [Habs|Hin]%foldl_max2_NaN; [discriminate|done].
Qed.

Lemma Math_min_NaN_iff zs : Math.min zs = NaN ↔ NaN ∈ zs.
Proof.
  split; [|apply Math_min_NaN].
  intros [Habs|Hin]%foldl_min2_NaN; [discriminate|done].
Qed.

(** X1: [maxZoom] throws exactly when there is no first channel or the
    first channel has no first layer, and what it throws is a TypeError;
    whether later channels have layers plays no part. *)
Theorem maxZoom_error_iff (e : Experiment.t) :
  (signals_error (Experiment.maxZoom e) ↔
     Experiment.channels e = [] ∨
     ∃ ch, Experiment.channels e !! 0 = Some ch ∧ Channel.layers ch = []) ∧
  (∀ exn, Experiment.maxZoom e = Throw exn → exn = TypeError).
Proof.
  unfold Experiment.maxZoom, signals_error.
  destruct (Experiment.channels e) as [|ch chs]; simpl.
  - split; [|by intros exn [= <-]]. split; [by left|by exists TypeError].
  - destruct (Channel.layers ch) as [|layer layers] eqn:Hlayers; simpl.
    + split; [|by intros exn [= <-]].
      split; [|by exists TypeError]. intros _. right. by exists ch.
    + split; [|done]. split; [by intros [exn Hexn]|].
      intros [Hnil|(ch' & [= <-] & Hnil)]; [done|congruence].
Qed.

Example layerless_first_maxZoom :
  Experiment.maxZoom layerless_first = Throw TypeError ∧
  Experiment.maxZ layerless_first = Normal (Int 5).
Proof. split; reflexivity. Qed.

(** X2: [maxZ] is NaN exactly when the maxZ of some channel is NaN, and
    [minZ] is NaN exactly when the minZ of some channel is NaN: one channel
    without a number spoils the projection for all. *)
Theorem maxZ_minZ_NaN_iff (e : Experiment.t) :
  (Experiment.maxZ e = Normal NaN ↔
     ∃ ch, ch ∈ Experiment.channels e ∧ Channel.maxZ ch = NaN) ∧
  (Experiment.minZ e = Normal NaN ↔
     ∃ ch, ch ∈ Experiment.channels e ∧ Channel.minZ ch = NaN).
Proof.
  unfold Experiment.maxZ, Experiment.minZ. split.
  - split.
    + intros [= Hmax]. apply Math_max_NaN_iff, list_elem_of_fmap in Hmax.
      destruct Hmax as (ch & Hch & Hin). by exists ch.
    + intros (ch & Hin & Hch). f_equal. apply Math_max_NaN_iff.
      apply list_elem_of_fmap. by exists ch.
  - split.
    + intros [= Hmin]. apply Math_min_NaN_iff, list_elem_of_fmap in Hmin.
      destruct Hmin as (ch & Hch & Hin). by exists ch.
    + intros (ch & Hin & Hch). f_equal. apply Math_min_NaN_iff.
      apply list_elem_of_fmap. by exists ch.
Qed.

(** X3: when there is at least one channel and every channel has
    minZ <= maxZ, the experiment has minZ <= maxZ. (With no channel the two
    are +Infinity and -Infinity, the other way round.) *)
Theorem minZ_le_maxZ (e : Experiment.t) :
  Experiment.channels e ≠ [] →
  (∀ ch, ch ∈ Experiment.channels e →
     number_le (Channel.minZ ch) (Channel.maxZ ch)) →
  ∃ lo hi,
    Experiment.minZ e = Normal lo ∧ Experiment.maxZ e = Normal hi ∧
    number_le lo hi.
Proof.
  intros Hne Hch. unfold Experiment.minZ, Experiment.maxZ.
  do 2 eexists. split; [done|]. split; [done|].
  destruct (Experiment.channels e) as [|ch chs] eqn:Hchs; [done|].
  assert (Hmax : NaN ∉ map Channel.maxZ (ch :: chs)).
  { intros (c & Hc & Hin)%list_elem_of_fmap.
    destruct (number_le_not_NaN _ _ (Hch c Hin)). congruence. }
  assert (Hmin : NaN ∉ map Channel.minZ (ch :: chs)).
  { intros (c & Hc & Hin)%list_elem_of_fmap.
    destruct (number_le_not_NaN _ _ (Hch c Hin)). congruence. }
  destruct (Math_max_maximum (map Channel.maxZ (ch :: chs))) as [_ Hub];
    [done|done|].
  destruct (Math_min_minimum (map Channel.minZ (ch :: chs))) as [_ Hlb];
    [done|done|].
  eapply number_le_trans; [apply (Hlb (Channel.minZ ch)); by left|].
  eapply number_le_trans; [apply (Hch ch); by left|].
  apply Hub. by left.
Qed.

Lemma minZ_le_maxZ_witness :
  ∃ lo hi,
    Experiment.minZ two_channels = Normal lo ∧
    Experiment.maxZ two_channels = Normal hi ∧
    number_le lo hi.
Proof.
  apply (minZ_le_maxZ two_channels).
  - discriminate.
  - intros ch Hch. unfold two_channels, experiment_of in Hch. simpl in Hch.
    apply elem_of_cons in Hch as [->|Hch]; [simpl; lia|].
    apply elem_of_cons in Hch as [->|Hch]; [simpl; lia|].
    by apply elem_of_nil in Hch.
Defined.

(** X4: [maxZ] and [minZ] do not depend on the order of the channels; of
    the three projections only [maxZoom] does. *)
Theorem maxZ_minZ_any_order (e1 e2 : Experiment.t) :
  Experiment.channels e1 ≡ₚ Experiment.channels e2 →
  Experiment.maxZ e1 = Experiment.maxZ e2 ∧
  Experiment.minZ e1 = Experiment.minZ e2.
Proof.
  intros Hperm. unfold Experiment.maxZ, Experiment.minZ.
  assert (Hmax : map Channel.maxZ (Experiment.channels e1) ≡ₚ
                 map Channel.maxZ (Experiment.channels e2))
    by (by apply fmap_Permutation).
  assert (Hmin : map Channel.minZ (Experiment.channels e1) ≡ₚ
                 map Channel.minZ (Experiment.channels e2))
    by (by apply fmap_Permutation).
  revert Hmax Hmin.
  generalize (map Channel.maxZ (Experiment.channels e1))
             (map Channel.maxZ (Experiment.channels e2))
             (map Channel.minZ (Experiment.channels e1))
             (map Channel.minZ (Experiment.channels e2)).
  intros xs1 xs2 ys1 ys2 Hxs Hys. split; f_equal.
  - destruct (Math.max xs1) eqn:H1.
    { symmetry. apply Math_max_NaN_iff. rewrite <- Hxs.
      by apply Math_max_NaN_iff. }
    all: rewrite <- H1.
    all: assert (Hn1 : NaN ∉ xs1)
      by (intros Hin%Math_max_NaN_iff; congruence).
    all: assert (Hn2 : NaN ∉ xs2) by (by rewrite <- Hxs).
    all: destruct xs1 as [|x xs1];
      [apply Permutation_nil_l in Hxs as <-; done|].
    all: assert (Hne2 : xs2 ≠ [])
      by (intros ->; by apply Permutation_nil_r in Hxs).
    all: destruct (Math_max_maximum (x :: xs1)) as [Hin1 Hub1];
      [done|done|].
    all: destruct (Math_max_maximum xs2) as [Hin2 Hub2]; [done|done|].
    all: apply number_le_antisym;
      [apply Hub2; by rewrite <- Hxs|apply Hub1; by rewrite Hxs].
  - destruct (Math.min ys1) eqn:H1.
    { symmetry. apply Math_min_NaN_iff. rewrite <- Hys.
      by apply Math_min_NaN_iff. }
    all: rewrite <- H1.
    all: assert (Hn1 : NaN ∉ ys1)
      by (intros Hin%Math_min_NaN_iff; congruence).
    all: assert (Hn2 : NaN ∉ ys2) by (by rewrite <- Hys).
    all: destruct ys1 as [|y ys1];
      [apply Permutation_nil_l in Hys as <-; done|].
    all: assert (Hne2 : ys2 ≠ [])
      by (intros ->; by apply Permutation_nil_r in Hys).
    all: destruct (Math_min_minimum (y :: ys1)) as [Hin1 Hlb1];
      [done|done|].
    all: destruct (Math_min_minimum ys2) as [Hin2 Hlb2]; [done|done|].
    all: apply number_le_antisym;
      [apply Hlb1; by rewrite Hys|apply Hlb2; by rewrite <- Hys].
Qed.

Lemma maxZ_minZ_any_order_witness :
  Experiment.maxZ two_channels =
    Experiment.maxZ
      (experiment_of [channel_of (-2) 3 [4]; channel_of 0 5 [7; 6]]) ∧
  Experiment.minZ two_channels =
    Experiment.minZ
      (experiment_of [channel_of (-2) 3 [4]; channel_of 0 5 [7; 6]]).
Proof.
  apply (maxZ_minZ_any_order two_channels
           (experiment_of [channel_of (-2) 3 [4]; channel_of 0 5 [7; 6]])).
  apply Permutation_swap.
Defined.

Example maxZoom_depends_on_order :
  Experiment.maxZoom two_channels ≠
  Experiment.maxZoom
    (experiment_of [channel_of (-2) 3 [4]; channel_of 0 5 [7; 6]]).
Proof. discriminate. Qed.

(** ** The constructor and the store *)

(** The last place where an element of a list occurs. *)
Lemma last_occurrence `{EqDecision A} (x : A) (xs : list A) :
  x ∈ xs → ∃ i, xs !! i = Some x ∧ x ∉ drop (S i) xs.
Proof.
  induction xs as [|y ys IH]; intros Hin; [by apply elem_of_nil in Hin|].
  destruct (decide (x ∈ ys)) as [Hlater|Hnot].
  - destruct (IH Hlater) as (i & Hi & Hdrop). by exists (S i).
  - apply elem_of_cons in Hin as [->|Hin]; [|done].
    exists 0. split; [done|]. by simpl.
Qed.

(** No occurrence comes after the last one. *)
Lemma occurrence_le_last {A} (x : A) (xs : list A) (i j : nat) :
  x ∉ drop (S i) xs → xs !! j = Some x → (j ≤ i)%nat.
Proof.
  intros Hdrop Hj. destruct (decide (j ≤ i)%nat) as [|Hgt]; [done|].
  exfalso. apply Hdrop. apply (list_elem_of_lookup_2 _ (j - S i)).
  rewrite lookup_drop. rewrite <- Hj. f_equal. lia.
Qed.

Section ConstructorStore.
Context `{!Channel.Constructor}.

Lemma constructor_snd (args : SerializedExperiment.t) (h : heap) :
  (Experiment.constructor args h).2 =
    (foldl Experiment.forEach_callback ([], h)
       (SerializedExperiment.channels args)).2.
Proof. unfold Experiment.constructor. by destruct (foldl _ _ _). Qed.

(** The object of an entry, after the construction: the record the last
    entry that refers to it gave to the constructor of Channel. *)
Lemma constructor_heap_last (args : SerializedExperiment.t) (h : heap)
    (i : nat) (l : loc) :
  SerializedExperiment.channels args !! i = Some l →
  l ∉ drop (S i) (SerializedExperiment.channels args) →
  (Experiment.constructor args h).2 !! l = Some (channel_record h i l).
Proof.
  intros Hi Hlast. rewrite constructor_snd.
  destruct (forEach_heap h (SerializedExperiment.channels args) [] h)
    as [_ Hin]; [apply heap_agree_refl|].
  destruct (Hin i l Hi) as (b & Hb & Hflag).
  rewrite Hb, Hflag by done. done.
Qed.

Lemma constructor_frame (args : SerializedExperiment.t) (h : heap) (l : loc) :
  l ∉ SerializedExperiment.channels args →
  (Experiment.constructor args h).2 !! l = h !! l.
Proof.
  intros Hl. rewrite constructor_snd.
  destruct (forEach_heap h (SerializedExperiment.channels args) [] h)
    as [Hout _]; [apply heap_agree_refl|].
  by apply Hout.
Qed.
End ConstructorStore.

(** X6: constructing a second time from the same record, in the store the
    first construction left, gives an equal Experiment and changes nothing
    in the store any more. *)
Theorem constructor_twice `{!Channel.Constructor}
    (args : SerializedExperiment.t) (h : heap) :
  Experiment.constructor args (Experiment.constructor args h).2 =
    Experiment.constructor args h.
Proof.
  pose proof (constructor_heap_agree args h) as Hag.
  remember (Experiment.constructor args h).2 as h1 eqn:Hh1.
  rewrite (surjective_pairing (Experiment.constructor args h1)).
  rewrite (surjective_pairing (Experiment.constructor args h)).
  f_equal; [by apply constructor_agree|].
  rewrite <- Hh1. apply map_eq. intros l.
  destruct (decide (l ∈ SerializedExperiment.channels args)) as [Hin|Hout].
  - destruct (last_occurrence l _ Hin) as (i & Hi & Hlast).
    rewrite (constructor_heap_last args h1 i l Hi Hlast).
    rewrite Hh1 at 2.
    rewrite (constructor_heap_last args h i l Hi Hlast).
    f_equal. by apply channel_record_agree.
  - by apply constructor_frame.
Qed.

(** X7: under aliasing the store keeps the last write. A record that is
    listed anywhere but first ends with [visible: false] in the store,
    even when it is listed first as well (and the first channel was
    constructed from it with [visible: true]); a record that is listed
    first and nowhere else ends with [visible: true]. *)
Theorem listed_later_ends_invisible `{!Channel.Constructor}
    (args : SerializedExperiment.t) (h : heap) (l : loc) :
  (∀ j, j ≠ 0 → SerializedExperiment.channels args !! j = Some l →
     ((Experiment.constructor args h).2 !!! l) !! "visible" =
       Some (VBool false)) ∧
  (SerializedExperiment.channels args !! 0 = Some l →
   l ∉ drop 1 (SerializedExperiment.channels args) →
     ((Experiment.constructor args h).2 !!! l) !! "visible" =
       Some (VBool true)).
Proof.
  split.
  - intros j Hj Hl.
    destruct (last_occurrence l (SerializedExperiment.channels args))
      as (i & Hi & Hlast); [by eapply list_elem_of_lookup_2|].
    pose proof (occurrence_le_last _ _ _ _ Hlast Hl) as Hle.
    rewrite (lookup_total_correct _ _ _
               (constructor_heap_last args h i l Hi Hlast)).
    unfold channel_record. rewrite lookup_insert_eq.
    rewrite bool_decide_eq_false_2 by lia. done.
  - intros Hl Hlast.
    rewrite (lookup_total_correct _ _ _
               (constructor_heap_last args h 0 l Hl Hlast)).
    unfold channel_record. by rewrite lookup_insert_eq.
Qed.

Example listed_twice :
  Experiment.channels
    (Experiment.constructor (H := sample_Channel) (serialized [2; 2]) store).1
    !! 0 =
    Some (sample_Channel {[ "name" := VStr "GFP"; "visible" := VBool true ]}) ∧
  (Experiment.constructor (H := sample_Channel) (serialized [2; 2]) store).2
    !! 2 = Some {[ "name" := VStr "GFP"; "visible" := VBool false ]}.
Proof. split; reflexivity. Qed.

(** ** The lifecycle operations, case by case *)

Lemma get_prop_throws (v : value) (p : string) (exn : value) :
  get_prop v p = Throw exn → exn = TypeError.
Proof. destruct v; simpl; congruence. Qed.

(** The only thing [resp.data.error] can throw is a TypeError. *)
Lemma resp_data_error_throws (resp exn : value) :
  resp_data_error resp = Throw exn → exn = TypeError.
Proof.
  unfold resp_data_error, mbind, completion_bind.
  destruct (get_prop resp "data") as [d|exn'] eqn:Hdata.
  - apply get_prop_throws.
  - intros [= <-]. by eapply get_prop_throws.
Qed.

Section LifecycleStore.
Context `{!Channel.Constructor}.

Lemma map_new_frame (recs : list SerializedExperiment.t) (l : loc) :
  ∀ h : heap,
    (∀ r, r ∈ recs → l ∉ SerializedExperiment.channels r) →
    (Experiment.map_new recs h).2 !! l = h !! l.
Proof.
  induction recs as [|r recs IH]; intros h Hl; [done|].
  cbn [Experiment.map_new].
  pose proof (constructor_frame r h l) as Hr.
  destruct (Experiment.constructor r h) as [x h1]. simpl in Hr.
  specialize (IH h1).
  destruct (Experiment.map_new recs h1) as [xs h2]. simpl in *.
  rewrite IH, Hr; [done|apply Hl; by left|].
  intros r' Hr'. apply Hl. by right.
Qed.
End LifecycleStore.

(** X8: [get(id)] asks for "/api/experiments/" followed by the id. When
    the transport answers with a record, the promise is fulfilled with the
    Experiment constructed from it and the store is the one the
    constructor leaves; when the transport fails, the promise is rejected
    with the very response of the transport (there is no rejection
    callback) and the store is untouched. *)
Theorem get_outcome `{!Channel.Constructor}
    (http_get : string → promise (response ExperimentData))
    (id : string) (h : heap) :
  (∀ e,
     http_get ("/api/experiments/" +:+ id) =
       Fulfilled {| data := {| experiment := e |} |} →
     Experiment.get http_get id h =
       (Fulfilled (Experiment.constructor e h).1,
        (Experiment.constructor e h).2)) ∧
  (∀ resp,
     http_get ("/api/experiments/" +:+ id) = Rejected resp →
     Experiment.get http_get id h = (Rejected resp, h)).
Proof.
  split.
  - intros e Hget. unfold Experiment.get, then_. rewrite Hget. simpl.
    by destruct (Experiment.constructor e h).
  - intros resp Hget. unfold Experiment.get, then_. by rewrite Hget.
Qed.

Lemma get_outcome_witness :
  Experiment.get (H := sample_Channel)
    (succeeding_http {| experiment := serialized [1; 2] |}) "7" store =
    (Fulfilled
       (Experiment.constructor (H := sample_Channel)
          (serialized [1; 2]) store).1,
     (Experiment.constructor (H := sample_Channel)
        (serialized [1; 2]) store).2) ∧
  Experiment.get (H := sample_Channel)
    (failing_http (VStr "no such experiment")) "7" store =
    (Rejected (error_response (VStr "no such experiment")), store).
Proof.
  split.
  - apply (proj1 (get_outcome (H := sample_Channel)
             (succeeding_http {| experiment := serialized [1; 2] |})
             "7" store) (serialized [1; 2])).
    reflexivity.
  - apply (proj2 (get_outcome (H := sample_Channel)
             (failing_http (VStr "no such experiment")) "7" store)
             (error_response (VStr "no such experiment"))).
    reflexivity.
Defined.

(** X9: when the transport fails, the promise of [getAll] is rejected with
    the very response of the transport, body or no body, and no Experiment
    is constructed: the store is untouched. *)
Theorem getAll_rejection_passes `{!Channel.Constructor}
    (http_get : string → promise (response ExperimentsData))
    (resp : value) (h : heap) :
  http_get "/api/experiments" = Rejected resp →
  Experiment.getAll http_get h = (Rejected resp, h) ∧
  ∀ exps, (Experiment.getAll http_get h).1 ≠ Fulfilled exps.
Proof.
  intros Hget. unfold Experiment.getAll, then_. rewrite Hget. by split.
Qed.

Lemma getAll_rejection_passes_witness :
  Experiment.getAll (H := sample_Channel) (failing_http null) store =
    (Rejected (error_response null), store) ∧
  ∀ exps,
    (Experiment.getAll (H := sample_Channel) (failing_http null) store).1 ≠
      Fulfilled exps.
Proof.
  apply (getAll_rejection_passes (H := sample_Channel)
           (failing_http null) (error_response null) store).
  reflexivity.
Defined.

(** X10: [getAll] changes nothing in the store but the [visible] property
    of channel records: every object keeps its other properties, and an
    object that no returned record lists is left as it was. *)
Theorem getAll_store_frame `{!Channel.Constructor}
    (http_get : string → promise (response ExperimentsData))
    (recs : list SerializedExperiment.t) (h : heap) :
  http_get "/api/experiments" =
    Fulfilled {| data := {| experiments := recs |} |} →
  heap_agree (Experiment.getAll http_get h).2 h ∧
  ∀ l, (∀ r, r ∈ recs → l ∉ SerializedExperiment.channels r) →
       (Experiment.getAll http_get h).2 !! l = h !! l.
Proof.
  intros Hget. unfold Experiment.getAll, then_. rewrite Hget. simpl.
  destruct (map_new_spec h recs h (heap_agree_refl h)) as [_ Hag].
  pose proof (map_new_frame recs) as Hframe. specialize (λ l, Hframe l h).
  destruct (Experiment.map_new recs h) as [exps h']. simpl in *.
  by split.
Qed.

Lemma getAll_store_frame_witness :
  heap_agree
    (Experiment.getAll (H := sample_Channel)
       (succeeding_http {| experiments := [serialized [2]; serialized []] |})
       store).2 store ∧
  ∀ l, (∀ r, r ∈ [serialized [2]; serialized []] →
          l ∉ SerializedExperiment.channels r) →
       (Experiment.getAll (H := sample_Channel)
          (succeeding_http
             {| experiments := [serialized [2]; serialized []] |})
          store).2 !! l = store !! l.
Proof.
  apply (getAll_store_frame (H := sample_Channel)
           (succeeding_http
              {| experiments := [serialized [2]; serialized []] |})
           [serialized [2]; serialized []] store).
  reflexivity.
Defined.

(** X11: there is no timeout. While the transport does not settle, the
    promise of each of the five operations stays pending, and nothing is
    constructed or written. *)
Theorem pending_transport_stays_pending `{!Channel.Constructor} (h : heap) :
  (∀ http_get,
     http_get "/api/experiments" = Pending →
     Experiment.getAll http_get h = (Pending, h)) ∧
  (∀ http_get id,
     http_get ("/api/experiments/" +:+ id) = Pending →
     Experiment.get http_get id h = (Pending, h)) ∧
  (∀ (http_delete : string → promise (response value)) id,
     http_delete ("/api/experiments/" +:+ id) = Pending →
     Experiment.delete http_delete id h = (Pending, h)) ∧
  (∀ http_post args,
     http_post "/api/experiments" (Experiment.create_body args) = Pending →
     Experiment.create http_post args h = (Pending, h)) ∧
  (∀ http_post this workflowArgs,
     http_post ("/api/experiments/" +:+ Experiment.id this +:+ "/workflow")
               workflowArgs = Pending →
     Experiment.submitWorkflow http_post this workflowArgs h = (Pending, h)).
Proof.
  repeat split.
  - intros http_get Hp. unfold Experiment.getAll, then_. by rewrite Hp.
  - intros http_get id Hp. unfold Experiment.get, then_. by rewrite Hp.
  - intros http_delete id Hp. unfold Experiment.delete. by rewrite Hp.
  - intros http_post args Hp. unfold Experiment.create. by rewrite Hp.
  - intros http_post this wargs Hp. unfold Experiment.submitWorkflow.
    by rewrite Hp.
Qed.

(** X12: the promise [create] returns is never settled exactly when the
    transport never settles or fails with a response without a body: then
    [resp.data.error] throws in the rejection callback before
    [deferredExp.reject] is reached. *)
Theorem create_pending_iff `{!Channel.Constructor}
    (http_post : string → value → promise (response ExperimentData))
    (args : CreateExperimentArgs.t) (h : heap) :
  (Experiment.create http_post args h).1 = Pending ↔
    http_post "/api/experiments" (Experiment.create_body args) = Pending ∨
    ∃ resp,
      http_post "/api/experiments" (Experiment.create_body args) =
        Rejected resp ∧
      resp_data_error resp = Throw TypeError.
Proof.
  unfold Experiment.create.
  destruct (http_post "/api/experiments" (Experiment.create_body args))
    as [|resp|resp] eqn:Hpost; simpl.
  - split; [by left|done].
  - destruct (Experiment.constructor _ h) as [e h']. simpl.
    split; [done|]. by intros [|(resp' & ? & _)].
  - destruct (resp_data_error resp) as [err|exn] eqn:Herr; simpl.
    + split; [done|]. intros [|(resp' & [= <-] & Hthrow)]; congruence.
    + split; [|done]. intros _. right. exists resp. split; [done|].
      by rewrite (resp_data_error_throws _ _ Herr) in Herr.
Qed.

Example create_without_body_is_pending :
  (Experiment.create (H := sample_Channel)
     (λ url body, Rejected (VObj {[ "data" := null ]}))
     create_args store).1 = Pending.
Proof. reflexivity. Qed.

(** X13: [create] writes to the store only by constructing the Experiment
    of a successful response; when the transport fails or never settles
    the store is left as it was. *)
Theorem create_store `{!Channel.Constructor}
    (http_post : string → value → promise (response ExperimentData))
    (args : CreateExperimentArgs.t) (h : heap) :
  (∀ e,
     http_post "/api/experiments" (Experiment.create_body args) =
       Fulfilled {| data := {| experiment := e |} |} →
     (Experiment.create http_post args h).2 =
       (Experiment.constructor e h).2) ∧
  ((∀ resp,
      http_post "/api/experiments" (Experiment.create_body args) ≠
        Fulfilled resp) →
   (Experiment.create http_post args h).2 = h).
Proof.
  unfold Experiment.create.
  destruct (http_post "/api/experiments" (Experiment.create_body args))
    as [|resp|resp] eqn:Hpost; simpl.
  - split; [done|]. done.
  - destruct (Experiment.constructor _ h) as [e' h'] eqn:Hctor. simpl.
    split.
    + intros e [= ->]. simpl in Hctor. by rewrite Hctor.
    + intros Hno. by destruct (Hno resp).
  - split; [done|]. intros _.
    by destruct (resp_data_error resp).
Qed.

(** X14: the promise of [delete] is rejected only when the transport fails
    with a response without a body, and then with the TypeError of the
    rejection callback, never with what the transport reported; [delete]
    never writes to the store. *)
Theorem delete_rejected_iff {D : Type}
    (http_delete : string → promise (response D)) (id : string) (h : heap)
    (reason : value) :
  ((Experiment.delete http_delete id h).1 = Rejected reason ↔
     reason = TypeError ∧
     ∃ resp,
       http_delete ("/api/experiments/" +:+ id) = Rejected resp ∧
       resp_data_error resp = Throw TypeError) ∧
  (Experiment.delete http_delete id h).2 = h.
Proof.
  unfold Experiment.delete.
  destruct (http_delete ("/api/experiments/" +:+ id))
    as [|resp|resp] eqn:Hdel; simpl.
  - split; [|done]. split; [done|]. by intros (_ & resp & ? & _).
  - split; [|done]. split; [done|]. by intros (_ & resp' & ? & _).
  - destruct (resp_data_error resp) as [err|exn] eqn:Herr; simpl.
    + split; [|done]. split; [done|].
      intros (_ & resp' & [= <-] & Hthrow). congruence.
    + pose proof (resp_data_error_throws _ _ Herr) as ->.
      split; [|done]. split.
      * intros [= <-]. split; [done|]. by exists resp.
      * by intros (-> & _).
Qed.

(** X15: the promise of [submitWorkflow] is rejected only when the
    transport fails with a response without a body, and then with the
    TypeError of the rejection callback; in every other case of failure it
    is fulfilled with [undefined]. [submitWorkflow] never writes to the
    store. *)
Theorem submitWorkflow_rejected_iff
    (http_post : string → value → promise (response value))
    (this : Experiment.t) (workflowArgs : value) (h : heap)
    (reason : value) :
  ((Experiment.submitWorkflow http_post this workflowArgs h).1 =
     Rejected reason ↔
     reason = TypeError ∧
     ∃ resp,
       http_post ("/api/experiments/" +:+ Experiment.id this +:+ "/workflow")
                 workflowArgs = Rejected resp ∧
       resp_data_error resp = Throw TypeError) ∧
  (Experiment.submitWorkflow http_post this workflowArgs h).2 = h.
Proof.
  unfold Experiment.submitWorkflow.
  destruct (http_post _ workflowArgs) as [|resp|resp] eqn:Hpost; simpl.
  - split; [|done]. split; [done|]. by intros (_ & resp & ? & _).
  - split; [|done]. split; [done|]. by intros (_ & resp' & ? & _).
  - destruct (resp_data_error resp) as [err|exn] eqn:Herr; simpl.
    + split; [|done]. split; [done|].
      intros (_ & resp' & [= <-] & Hthrow). congruence.
    + pose proof (resp_data_error_throws _ _ Herr) as ->.
      split; [|done]. split.
      * intros [= <-]. split; [done|]. by exists resp.
      * by intros (-> & _).
Qed.

(** ** The checks of create_conda_env.sh *)

Ltac checks_cases fs :=
  unfold CreateCondaEnv.checks;
  destruct (CreateCondaEnv.is_directory fs "src"),
           (CreateCondaEnv.is_directory fs "docs"),
           (CreateCondaEnv.is_directory fs "scripts"),
           (CreateCondaEnv.is_regular_file fs "requirements-1.txt"),
           (CreateCondaEnv.is_regular_file fs "requirements-2.txt"),
           (CreateCondaEnv.is_regular_file fs "requirements-Darwin-3.txt");
  simpl.

(** X16: the script gets past its checks exactly when [src], [docs] and
    [scripts] are directories and the three requirements files are
    there. *)
Theorem checks_go_on_iff (fs : CreateCondaEnv.filesystem) :
  CreateCondaEnv.checks fs = CreateCondaEnv.GoesOn ↔
    CreateCondaEnv.is_directory fs "src" = true ∧
    CreateCondaEnv.is_directory fs "docs" = true ∧
    CreateCondaEnv.is_directory fs "scripts" = true ∧
    CreateCondaEnv.is_regular_file fs "requirements-1.txt" = true ∧
    CreateCondaEnv.is_regular_file fs "requirements-2.txt" = true ∧
    CreateCondaEnv.is_regular_file fs "requirements-Darwin-3.txt" = true.
Proof. checks_cases fs; intuition (try discriminate; eauto). Qed.

(** X17: the checks stop the script with status 100 or 101 and no other.
    The status is 100 exactly when one of the three directories is
    missing, whether or not the requirements files are there, and 101
    exactly when the directories are there and a requirements file is
    missing. *)
Theorem checks_exit_status (fs : CreateCondaEnv.filesystem) :
  (∀ code message,
     CreateCondaEnv.checks fs = CreateCondaEnv.Exit code message →
     code = 100 ∨ code = 101) ∧
  ((∃ message, CreateCondaEnv.checks fs = CreateCondaEnv.Exit 100 message) ↔
     CreateCondaEnv.is_directory fs "src" = false ∨
     CreateCondaEnv.is_directory fs "docs" = false ∨
     CreateCondaEnv.is_directory fs "scripts" = false) ∧
  ((∃ message, CreateCondaEnv.checks fs = CreateCondaEnv.Exit 101 message) ↔
     (CreateCondaEnv.is_directory fs "src" = true ∧
      CreateCondaEnv.is_directory fs "docs" = true ∧
      CreateCondaEnv.is_directory fs "scripts" = true) ∧
     (CreateCondaEnv.is_regular_file fs "requirements-1.txt" = false ∨
      CreateCondaEnv.is_regular_file fs "requirements-2.txt" = false ∨
      CreateCondaEnv.is_regular_file fs "requirements-Darwin-3.txt" = false)).
Proof.
  checks_cases fs.
  all: split; [intros code message [= <- _]; auto|].
  all: split; (split; [intros [message [= _]]; auto|]).
  all: try (intros [Hd|[Hd|Hd]]; discriminate).
  all: try (intros [(Hs & Hd & Hc) [Hf|[Hf|Hf]]]; discriminate).
  all: try (intros _; by eexists).
Qed.

(** X18: with the directories in place, the message names the first
    requirements file that is missing, in the order 1, 2, Darwin-3; the
    files after it are not looked at. *)
Theorem checks_name_first_missing (fs : CreateCondaEnv.filesystem) :
  CreateCondaEnv.is_directory fs "src" = true →
  CreateCondaEnv.is_directory fs "docs" = true →
  CreateCondaEnv.is_directory fs "scripts" = true →
  (CreateCondaEnv.is_regular_file fs "requirements-1.txt" = false →
   CreateCondaEnv.checks fs =
     CreateCondaEnv.Exit 101
       (CreateCondaEnv.missing "requirements-1.txt")) ∧
  (CreateCondaEnv.is_regular_file fs "requirements-1.txt" = true →
   CreateCondaEnv.is_regular_file fs "requirements-2.txt" = false →
   CreateCondaEnv.checks fs =
     CreateCondaEnv.Exit 101
       (CreateCondaEnv.missing "requirements-2.txt")) ∧
  (CreateCondaEnv.is_regular_file fs "requirements-1.txt" = true →
   CreateCondaEnv.is_regular_file fs "requirements-2.txt" = true →
   CreateCondaEnv.is_regular_file fs "requirements-Darwin-3.txt" = false →
   CreateCondaEnv.checks fs =
     CreateCondaEnv.Exit 101
       (CreateCondaEnv.missing "requirements-Darwin-3.txt")).
Proof.
  unfold CreateCondaEnv.checks. intros -> -> ->. simpl.
  repeat split.
  - by intros ->.
  - by intros -> ->.
  - by intros -> -> ->.
Qed.

Lemma checks_name_first_missing_witness :
  CreateCondaEnv.checks checkout_without_requirements_2 =
    CreateCondaEnv.Exit 101
      "requirements-2.txt is missing from the root directory of tmlibrary".
Proof.
  apply (proj1 (proj2 (checks_name_first_missing
           checkout_without_requirements_2 eq_refl eq_refl eq_refl)));
    reflexivity.
Defined.

Lemma append_not_empty (s t : string) : t ≠ "" → s +:+ t ≠ "".
Proof. destruct s; [done|discriminate]. Qed.

Lemma append_assoc (s t u : string) : (s +:+ t) +:+ u = s +:+ (t +:+ u).
Proof.
  induction s as [|c s IH]; [done|].
  change (String c ((s +:+ t) +:+ u) = String c (s +:+ (t +:+ u))).
  by f_equal.
Qed.

(** X19: whatever the working directory is, the gc3pie configuration is
    written to [.gc3/gc3pie.conf] under it: [GC3PIE_DIR] has just been set
    to a value that is not empty, so the [:-$PWD] fallback of
    [${GC3PIE_DIR:-$PWD}] never applies. *)
Theorem GC3PIE_CONF_under_PWD (PWD : string) :
  CreateCondaEnv.GC3PIE_CONF PWD = PWD +:+ "/.gc3/gc3pie.conf" ∧
  CreateCondaEnv.default_value (CreateCondaEnv.GC3PIE_DIR PWD) PWD =
    CreateCondaEnv.GC3PIE_DIR PWD.
Proof.
  unfold CreateCondaEnv.GC3PIE_CONF, CreateCondaEnv.default_value,
    CreateCondaEnv.GC3PIE_DIR.
  destruct (decide (PWD +:+ "/.gc3" = "")) as [Hempty|_].
  - by apply append_not_empty in Hempty.
  - by rewrite append_assoc.
Qed.

Example GC3PIE_CONF_at_root :
  CreateCondaEnv.GC3PIE_CONF "" = "/.gc3/gc3pie.conf".
Proof. reflexivity. Qed.
